(** * Author filter and pagination of [src/components/App.jsx]

    A shallow embedding of the logic of the [App] component: the derivation
    of the author options, the filtered post list, the page arithmetic, the
    two event handlers and the part of the rendered tree that depends on
    them.  JavaScript numbers are integers here ([Z]); the one division of
    the component is taken over the rationals, where it is exact. *)

From Stdlib Require Import ZArith QArith Qround.
From stdpp Require Import base decidable option list strings gmap.

Local Open Scope string_scope.
Local Open Scope Z_scope.

(** ** Data model (the shape of [mock/data.json]) *)

Record Category := mkCategory {
  cat_id : Z;
  cat_name : string
}.

Record Author := mkAuthor {
  name : string;
  avatar : string
}.

Record Post := mkPost {
  id : Z;
  author : Author;
  title : string;
  summary : string;
  publishDate : string;
  categories : list Category
}.

(** An entry of the select widget: [{ value, label }]. *)
Record AuthorOption := mkOption {
  value : string;
  label : string
}.

#[global] Instance AuthorOption_eq_dec : EqDecision AuthorOption.
Proof. solve_decision. Defined.

(** The two [useState] cells.  [selectedAuthor] holds what the select widget
    handed to [onChange]: an option object, or [null] ([None]). *)
Record ViewState := mkState {
  selectedAuthor : option AuthorOption;
  currentPage : Z
}.

Definition initialState : ViewState :=
  {| selectedAuthor := None; currentPage := 0 |}.

(** [const POSTS_PER_PAGE = 3;] *)
Definition POSTS_PER_PAGE : Z := 3.

(** ** The JavaScript built-ins the component calls *)

Module JS.

(** A [Set] of strings keeps its elements in insertion order; [add] of an
    element that is already there changes nothing. *)
Definition Set_add (s : list string) (x : string) : list string :=
  if decide (x ∈ s) then s else s ++ [x].

(** [new Set(iterable)]: [add] every element, in iteration order. *)
Definition Set_new (xs : list string) : list string :=
  foldl Set_add [] xs.

(** [Array.from(set)]: the elements in insertion order. *)
Definition Array_from (s : list string) : list string := s.

(** Truthiness of a string: every string but the empty one. *)
Definition truthy (s : string) : bool :=
  match s with
  | EmptyString => false
  | String _ _ => true
  end.

(** [Array.prototype.slice(start, end)] on integer arguments: a negative
    index counts from the end, both bounds are clamped to the length, and
    an empty range gives the empty array. *)
Definition slice {A} (l : list A) (start end_ : Z) : list A :=
  let len := Z.of_nat (length l) in
  let k := if start <? 0 then Z.max (len + start) 0 else Z.min start len in
  let final := if end_ <? 0 then Z.max (len + end_) 0 else Z.min end_ len in
  let count := Z.max (final - k) 0 in
  take (Z.to_nat count) (drop (Z.to_nat k) l).

(** [Math.ceil(a / b)] for integers [a] and [b]: the quotient is taken in
    the rationals.  For an array length [a] (below [2^32]) and [b = 3] the
    double nearest to [a / 3] lies strictly between the same two integers
    as [a / 3] itself, or is that integer, so the result is the same. *)
Definition ceil_div (a b : Z) : Z :=
  Qceiling (Qdiv (inject_Z a) (inject_Z b)).

End JS.

(** ** The derived values of [App] *)

(** [postData.posts.map((post) => post.author.name)] *)
Definition authorNames (posts : list Post) : list string :=
  map (λ post, name (author post)) posts.

(** [Array.from(new Set(postData.posts.map(...)))] *)
Definition uniqueAuthors (posts : list Post) : list string :=
  JS.Array_from (JS.Set_new (authorNames posts)).

Definition showAll : AuthorOption := {| value := ""; label := "Show All" |}.

(** [[{ value: "", label: "Show All" }, ...uniqueAuthors.map(...)]] *)
Definition authorOptions (posts : list Post) : list AuthorOption :=
  showAll :: map (λ a, {| value := a; label := a |}) (uniqueAuthors posts).

(** [selectedAuthor?.value]: [undefined] for [null], which is falsy. *)
Definition selectedValue (sel : option AuthorOption) : option string :=
  value <$> sel.

(** [selectedAuthor?.value ? posts.filter(...) : posts] *)
Definition filteredPosts (posts : list Post) (sel : option AuthorOption)
  : list Post :=
  match selectedValue sel with
  | Some v =>
      if JS.truthy v
      then filter (λ post, name (author post) = v) posts
      else posts
  | None => posts
  end.

(** [Math.ceil(filteredPosts.length / POSTS_PER_PAGE)] *)
Definition pageCount (filtered : list Post) : Z :=
  JS.ceil_div (Z.of_nat (length filtered)) POSTS_PER_PAGE.

(** [currentPage * POSTS_PER_PAGE] *)
Definition offset (page : Z) : Z := page * POSTS_PER_PAGE.

(** [filteredPosts.slice(offset, offset + POSTS_PER_PAGE)] *)
Definition currentPagePosts (filtered : list Post) (page : Z) : list Post :=
  JS.slice filtered (offset page) (offset page + POSTS_PER_PAGE).

(** The pages a pager with [pageCount] entries can ask for, in order. *)
Definition pages (filtered : list Post) : list (list Post) :=
  currentPagePosts filtered <$> seqZ 0 (pageCount filtered).

(** ** Event handlers *)

(** [handleAuthorChange]: [setSelectedAuthor(selectedOption);
    setCurrentPage(0);] *)
Definition handleAuthorChange (selectedOption : option AuthorOption)
    (st : ViewState) : ViewState :=
  {| selectedAuthor := selectedOption; currentPage := 0 |}.

(** [handlePageChange]: [setCurrentPage(selectedPage.selected);] *)
Definition handlePageChange (selected : Z) (st : ViewState) : ViewState :=
  {| selectedAuthor := selectedAuthor st; currentPage := selected |}.

(** ** The rendered tree, as far as it depends on the state *)

Inductive Body :=
  | PostSection (shown : list Post)
  | NoBooksFound.

Record Pager := mkPager { pager_pageCount : Z }.

Record View := mkView {
  view_options : list AuthorOption;
  view_value : option AuthorOption;
  view_body : Body;
  view_pagination : option Pager
}.

(** [filteredPosts.length > POSTS_PER_PAGE] *)
Definition showPagination (filtered : list Post) : bool :=
  bool_decide (Z.of_nat (length filtered) > POSTS_PER_PAGE).

Definition App (posts : list Post) (st : ViewState) : View :=
  let filtered := filteredPosts posts (selectedAuthor st) in
  let shown := currentPagePosts filtered (currentPage st) in
  {| view_options := authorOptions posts;
     view_value := selectedAuthor st;
     view_body :=
       if bool_decide (Z.of_nat (length shown) > 0)
       then PostSection shown else NoBooksFound;
     view_pagination :=
       if showPagination filtered
       then Some {| pager_pageCount := pageCount filtered |} else None |}.

(** ** Runs of the component *)

Inductive Event :=
  | AuthorChange (selectedOption : option AuthorOption)
  | PageChange (selected : Z).

Definition handle (ev : Event) (st : ViewState) : ViewState :=
  match ev with
  | AuthorChange o => handleAuthorChange o st
  | PageChange i => handlePageChange i st
  end.

(** What the pager is trusted to emit: an index of one of the pages of the
    list that is filtered at the time of the event. *)
Definition validEvent (posts : list Post) (st : ViewState) (ev : Event) : Prop :=
  match ev with
  | AuthorChange _ => True
  | PageChange i =>
      0 <= i < pageCount (filteredPosts posts (selectedAuthor st))
  end.

Inductive reachable (posts : list Post) : ViewState → Prop :=
  | reachable_init : reachable posts initialState
  | reachable_step st ev :
      reachable posts st →
      validEvent posts st ev →
      reachable posts (handle ev st).

(** What the two widgets can emit: the select hands over one of the options
    it was given, or [null] when it is cleared; the pager hands over an index
    of one of its pages. *)
Definition offeredEvent (posts : list Post) (st : ViewState) (ev : Event)
  : Prop :=
  match ev with
  | AuthorChange None => True
  | AuthorChange (Some o) => o ∈ authorOptions posts
  | PageChange i =>
      0 <= i < pageCount (filteredPosts posts (selectedAuthor st))
  end.

Inductive reachableOffered (posts : list Post) : ViewState → Prop :=
  | reachableOffered_init : reachableOffered posts initialState
  | reachableOffered_step st ev :
      reachableOffered posts st →
      offeredEvent posts st ev →
      reachableOffered posts (handle ev st).

(** ** The post section

    One [<article>] per post of the page; the text of the [<time>] element
    ([toLocaleDateString()], which depends on the locale) is left out. *)

Record CategoryItem := mkCategoryItem {
  li_key : Z;
  li_text : string
}.

Record Article := mkArticle {
  article_key : Z;
  img_src : string;
  img_alt : string;
  article_h3 : string;
  article_h4 : string;
  time_dateTime : string;
  article_p : string;
  article_ul : list CategoryItem
}.

(** [<li key={category.id}>{category.name}</li>] *)
Definition renderCategory (category : Category) : CategoryItem :=
  {| li_key := cat_id category; li_text := cat_name category |}.

(** [<article key={post.id} className="post-container">...</article>] *)
Definition renderArticle (post : Post) : Article :=
  {| article_key := id post;
     img_src := avatar (author post);
     img_alt := name (author post);
     article_h3 := name (author post);
     article_h4 := title post;
     time_dateTime := publishDate post;
     article_p := summary post;
     article_ul := renderCategory <$> categories post |}.

(** The articles of a rendered tree: [currentPagePosts.map(...)] in the post
    section, none beside the "no books found" paragraph. *)
Definition renderedArticles (v : View) : list Article :=
  match view_body v with
  | PostSection shown => renderArticle <$> shown
  | NoBooksFound => []
  end.

(** ** The styles handed to the select

    A style object maps property names to strings, numbers or nested style
    objects; [{...provided, k: v}] is [provided] with [k] set to [v]. *)

#[warnings="-register-all"]
Inductive CSS :=
  | CSSStr (s : string)
  | CSSNum (n : Z)
  | CSSObj (o : gmap string CSS).

Record SelectState := mkSelectState {
  isFocused : bool;
  isSelected : bool
}.

Module styles.

(** [control: (provided, state) => ({ ...provided, border: ..., boxShadow:
    ..., "&:hover": { border: ... } })] *)
Definition control (provided : gmap string CSS) (state : SelectState)
  : gmap string CSS :=
  <["&:hover" := CSSObj {["border" := CSSStr "2px solid #9000ff"]}]>
    (<["boxShadow" :=
         CSSStr (if isFocused state then "0 0 5px #9000ff" else "none")]>
       (<["border" :=
            CSSStr (if isFocused state
                    then "2px solid #9000ff" else "2px solid gray")]>
          provided)).

(** [option: (provided, state) => ({ ...provided, background: ..., color:
    ..., "&:hover": { background: ... } })] *)
Definition option (provided : gmap string CSS) (state : SelectState)
  : gmap string CSS :=
  <["&:hover" := CSSObj {["background" := CSSStr "#CEA3FF"]}]>
    (<["color" := CSSStr (if isSelected state then "white" else "black")]>
       (<["background" :=
            CSSStr (if isSelected state then "#9000ff" else "white")]>
          provided)).

End styles.

(** ** Sample data *)

Definition samplePost (i : Z) (who : string) : Post :=
  {| id := i; author := {| name := who; avatar := "" |};
     title := ""; summary := ""; publishDate := "2020-01-01";
     categories := [] |}.

(** A post whose author has the empty name. *)
Definition anonymousPost : Post := samplePost 1 "".

Definition samplePosts : list Post :=
  [samplePost 1 "Bob"; samplePost 2 "Alice"; samplePost 3 "Bob";
   samplePost 4 "Bob"; samplePost 5 "Alice"; samplePost 6 "Bob";
   samplePost 7 "Bob"].

(** Ten posts, five by each of two authors: four pages in all, two pages for
    either author. *)
Definition tenPosts : list Post :=
  [samplePost 1 "Bob"; samplePost 2 "Alice"; samplePost 3 "Bob";
   samplePost 4 "Alice"; samplePost 5 "Bob"; samplePost 6 "Alice";
   samplePost 7 "Bob"; samplePost 8 "Alice"; samplePost 9 "Bob";
   samplePost 10 "Alice"].

(** A session on [tenPosts]: the last page is chosen, then the author "Bob",
    then the page before the last page of the ten posts, which the pager,
    keeping a current page of its own that [App] does not set, offers as
    "Previous". *)
Definition stalePagerSession : list Event :=
  [PageChange 3;
   AuthorChange (Some {| value := "Bob"; label := "Bob" |});
   PageChange 2].

(** The state after a list of events, handled one after the other. *)
Definition run (events : list Event) (st : ViewState) : ViewState :=
  foldl (λ st ev, handle ev st) st events.

Example uniqueAuthors_sample : uniqueAuthors samplePosts = ["Bob"; "Alice"].
Proof. vm_compute. reflexivity. Qed.

Example pageCount_sample : pageCount samplePosts = 3.
Proof. vm_compute. reflexivity. Qed.

Example currentPagePosts_sample :
  id <$> currentPagePosts samplePosts 2 = [7].
Proof. vm_compute. reflexivity. Qed.

(** ** Insertion-ordered sets *)

Section InsertionOrder.

Implicit Types (s xs : list string) (x y : string).

Lemma Set_add_elem_of s x y : y ∈ JS.Set_add s x ↔ y ∈ s ∨ y = x.
Proof.
  unfold JS.Set_add. case_decide as Hx.
  - split; [auto | intros [? | ->]; done].
  - rewrite elem_of_app, list_elem_of_singleton. done.
Qed.

Lemma Set_add_NoDup s x : NoDup s → NoDup (JS.Set_add s x).
Proof.
  intros Hs. unfold JS.Set_add. case_decide as Hx; [done |].
  apply NoDup_app. split_and!; [done | | apply NoDup_singleton].
  intros y Hy ->%list_elem_of_singleton. done.
Qed.

Lemma Set_new_snoc xs x :
  JS.Set_new (xs ++ [x]) = JS.Set_add (JS.Set_new xs) x.
Proof. unfold JS.Set_new. by rewrite foldl_app. Qed.

Lemma Set_new_elem_of xs y : y ∈ JS.Set_new xs ↔ y ∈ xs.
Proof.
  induction xs as [| x xs IH] using rev_ind.
  - done.
  - rewrite Set_new_snoc, Set_add_elem_of, IH, elem_of_app,
      list_elem_of_singleton. done.
Qed.

Lemma Set_new_NoDup xs : NoDup (JS.Set_new xs).
Proof.
  induction xs as [| x xs IH] using rev_ind.
  - apply NoDup_nil_2.
  - rewrite Set_new_snoc. by apply Set_add_NoDup.
Qed.



End InsertionOrder.

(** ** Page arithmetic *)

Lemma ceil_div_pos (a : Z) (p : positive) :
  JS.ceil_div a (Z.pos p) = - (- a / Z.pos p).
Proof.
  unfold JS.ceil_div, Qceiling, Qfloor, Qdiv, Qmult, Qinv, Qopp, inject_Z.
  cbn [Qnum Qden]. rewrite Z.mul_1_r, Pos.mul_1_l. reflexivity.
Qed.

Lemma ceil_div_bounds (a : Z) (p : positive) :
  Z.pos p * (JS.ceil_div a (Z.pos p) - 1) < a <= Z.pos p * JS.ceil_div a (Z.pos p).
Proof.
  rewrite ceil_div_pos.
  pose proof (Z.div_mod (- a) (Z.pos p) ltac:(lia)) as Hdm.
  pose proof (Z.mod_pos_bound (- a) (Z.pos p) ltac:(lia)) as Hb.
  lia.
Qed.

Lemma pageCount_bounds (filtered : list Post) :
  3 * (pageCount filtered - 1) < Z.of_nat (length filtered)
    <= 3 * pageCount filtered.
Proof. apply (ceil_div_bounds _ 3%positive). Qed.

Lemma pageCount_nonneg (filtered : list Post) : 0 <= pageCount filtered.
Proof. pose proof (pageCount_bounds filtered). lia. Qed.

(** ** Slices *)

Lemma slice_nonneg {A} (l : list A) (start count : Z) :
  0 <= start → 0 <= count →
  JS.slice l start (start + count)
  = take (Z.to_nat count) (drop (Z.to_nat start) l).
Proof.
  intros Hs Hc. unfold JS.slice. cbv zeta.
  destruct (Z.ltb_spec start 0) as [? | _]; [lia |].
  destruct (Z.ltb_spec (start + count) 0) as [? | _]; [lia |].
  destruct (decide (Z.of_nat (length l) <= start)) as [Hge | Hlt].
  - rewrite drop_ge by lia. rewrite (drop_ge l (Z.to_nat start)) by lia.
    by rewrite !take_nil.
  - rewrite (Z.min_l start) by lia.
    rewrite <- (take_ge (drop (Z.to_nat start) l)
                  (length l - Z.to_nat start)) at 2
      by (rewrite length_drop; lia).
    rewrite take_take. f_equal. lia.
Qed.

Lemma currentPagePosts_nonneg (filtered : list Post) (page : Z) :
  0 <= page →
  currentPagePosts filtered page
  = take 3 (drop (3 * Z.to_nat page) filtered).
Proof.
  intros Hp. unfold currentPagePosts, offset, POSTS_PER_PAGE.
  rewrite slice_nonneg by lia. f_equal. f_equal. lia.
Qed.

Lemma currentPagePosts_past_end (filtered : list Post) (page : Z) :
  0 <= page →
  Z.of_nat (length filtered) <= offset page →
  currentPagePosts filtered page = [].
Proof.
  intros Hp Hlen. rewrite currentPagePosts_nonneg by done.
  unfold offset, POSTS_PER_PAGE in Hlen. rewrite drop_ge by lia. reflexivity.
Qed.

Lemma chunks_concat {A} (l : list A) (k : nat) :
  (length l ≤ 3 * k)%nat →
  concat (map (λ p : nat, take 3 (drop (3 * p) l)) (seq 0 k)) = l.
Proof.
  revert l. induction k as [| k IH]; intros l Hl.
  - destruct l; [done | simpl in Hl; lia].
  - cbn [seq map concat]. rewrite <- seq_shift, map_map.
    transitivity (take 3 l ++ drop 3 l)%list; [| apply take_drop].
    f_equal.
    etransitivity; [| apply (IH (drop 3 l)); rewrite length_drop; lia].
    f_equal. apply map_ext. intros p. rewrite drop_drop. do 2 f_equal. lia.
Qed.

Lemma concat_length_sum {A} (ls : list (list A)) :
  length (concat ls) = sum_list (length <$> ls).
Proof.
  induction ls as [| l ls IH]; [done |].
  cbn. rewrite length_app, IH. done.
Qed.

Lemma pages_concat (filtered : list Post) : concat (pages filtered) = filtered.
Proof.
  unfold pages, seqZ. rewrite <- list_fmap_compose.
  rewrite <- (chunks_concat filtered (Z.to_nat (pageCount filtered))) at 3.
  - f_equal. apply map_ext. intros p. cbn.
    rewrite currentPagePosts_nonneg by lia. do 3 f_equal. lia.
  - pose proof (pageCount_bounds filtered). lia.
Qed.

(** ** Author options *)


Lemma uniqueAuthors_elem_of (posts : list Post) (n : string) :
  n ∈ uniqueAuthors posts ↔ n ∈ authorNames posts.
Proof. apply Set_new_elem_of. Qed.



(** Why the data model keeps the empty name for "Show All": the option made
    for an author of the empty name would have the value of "Show All". *)
Lemma authorOptions_shared_value :
  ∃ (i j : nat) (o1 o2 : AuthorOption),
    i ≠ j
    ∧ authorOptions [anonymousPost] !! i = Some o1
    ∧ authorOptions [anonymousPost] !! j = Some o2
    ∧ value o1 = value o2.
Proof.
  exists 0%nat, 1%nat, showAll, {| value := ""; label := "" |}.
  split_and!; [lia | reflexivity ..].
Qed.

(** ** Filtering *)

Lemma truthy_nonempty (v : string) : JS.truthy v = true ↔ v ≠ "".
Proof. destruct v; cbn; split; congruence. Qed.

Lemma filteredPosts_named (posts : list Post) (sel : AuthorOption) :
  value sel ≠ "" →
  filteredPosts posts (Some sel)
  = filter (λ post, name (author post) = value sel) posts.
Proof.
  intros Hv. unfold filteredPosts. cbn.
  apply truthy_nonempty in Hv. by rewrite Hv.
Qed.

Lemma filteredPosts_empty_value (posts : list Post) (sel : AuthorOption) :
  value sel = "" → filteredPosts posts (Some sel) = posts.
Proof. intros Hv. unfold filteredPosts. cbn. by rewrite Hv. Qed.

(** C2: for a selection whose value is an author name [A] (not the empty
    string), [filteredPosts] is the posts whose [author.name] is [A], in
    their original order (a sublist of the collection that has exactly the
    posts of [A]); for [null] and for a selection with the empty-string
    value it is the whole collection. *)
Theorem filteredPosts_spec (posts : list Post) :
  (∀ sel : AuthorOption, value sel ≠ "" →
     filteredPosts posts (Some sel)
       = filter (λ post, name (author post) = value sel) posts
     ∧ filteredPosts posts (Some sel) `sublist_of` posts
     ∧ ∀ post, post ∈ filteredPosts posts (Some sel)
               ↔ name (author post) = value sel ∧ post ∈ posts)
  ∧ filteredPosts posts None = posts
  ∧ (∀ sel : AuthorOption, value sel = "" →
       filteredPosts posts (Some sel) = posts).
Proof.
  split_and!.
  - intros sel Hv. rewrite filteredPosts_named by done. split_and!.
    + reflexivity.
    + apply sublist_filter.
    + intros post. by rewrite list_elem_of_filter.
  - reflexivity.
  - apply filteredPosts_empty_value.
Qed.

Lemma filteredPosts_spec_witness :
  id <$> filteredPosts samplePosts (Some {| value := "Alice"; label := "Alice" |})
    = [2; 5]
  ∧ filteredPosts samplePosts (Some showAll) = samplePosts.
Proof.
  destruct (filteredPosts_spec samplePosts) as (Hname & _ & Hall).
  split.
  - destruct (Hname {| value := "Alice"; label := "Alice" |}) as (-> & _).
    + cbn. discriminate.
    + vm_compute. reflexivity.
  - apply Hall. reflexivity.
Defined.

(** ** Page count *)

(** C3: [pageCount] is the ceiling of [length / 3], the integer [k] with
    [k - 1 < length / 3 <= k], which is [(length + 2) / 3] rounded down;
    for the empty list it is 0. *)
Theorem pageCount_spec (filtered : list Post) :
  3 * (pageCount filtered - 1) < Z.of_nat (length filtered)
    <= 3 * pageCount filtered
  ∧ pageCount filtered = (Z.of_nat (length filtered) + 2) / 3
  ∧ pageCount [] = 0.
Proof.
  pose proof (pageCount_bounds filtered) as Hb.
  split_and!; [lia | lia | | reflexivity].
  apply Z.div_unique with (r := Z.of_nat (length filtered) + 2
                                - 3 * pageCount filtered); lia.
Qed.

(** ** The page shown *)

(** C4: for a page index [currentPage >= 0], [currentPagePosts] holds the
    posts at the indices from [offset] up to, not including, the smaller of
    [offset + 3] and the length, in order; it is always defined, and it is
    empty when [offset] is at or past the length. *)
Theorem currentPagePosts_spec (filtered : list Post) (page : Z) :
  0 <= page →
  (∀ i : nat,
     currentPagePosts filtered page !! i
     = if decide (offset page + Z.of_nat i
                  < Z.min (offset page + POSTS_PER_PAGE)
                          (Z.of_nat (length filtered)))
       then filtered !! (Z.to_nat (offset page) + i)%nat
       else None)
  ∧ (Z.of_nat (length filtered) <= offset page →
     currentPagePosts filtered page = []).
Proof.
  intros Hp. rewrite currentPagePosts_nonneg by done.
  unfold offset, POSTS_PER_PAGE. split.
  - intros i. case_decide as Hi.
    + rewrite lookup_take_lt by lia. rewrite lookup_drop. f_equal. lia.
    + destruct (decide (i < 3)%nat).
      * rewrite lookup_take_lt by lia. rewrite lookup_drop.
        apply lookup_ge_None. lia.
      * apply lookup_take_ge. lia.
  - intros Hlen. rewrite drop_ge by lia. reflexivity.
Qed.

Lemma currentPagePosts_spec_witness :
  currentPagePosts samplePosts 2 !! 0%nat = samplePosts !! 6%nat
  ∧ currentPagePosts samplePosts 3 = [].
Proof.
  split.
  - destruct (currentPagePosts_spec samplePosts 2) as [Hlook _]; [lia |].
    rewrite Hlook. reflexivity.
  - destruct (currentPagePosts_spec samplePosts 3) as [_ Hnil]; [lia |].
    apply Hnil. vm_compute. discriminate.
Defined.

(** ** Changing the author *)

(** C5: whatever the state was, [handleAuthorChange] leaves the new selection
    in [selectedAuthor] and 0 in [currentPage]. *)
Theorem handleAuthorChange_spec (st : ViewState) (sel : option AuthorOption) :
  selectedAuthor (handleAuthorChange sel st) = sel
  ∧ currentPage (handleAuthorChange sel st) = 0
  ∧ handle (AuthorChange sel) st = {| selectedAuthor := sel; currentPage := 0 |}.
Proof. split_and!; reflexivity. Qed.

(** ** The pages together *)

Lemma currentPagePosts_length (filtered : list Post) (page : Z) :
  0 <= page →
  Z.of_nat (length (currentPagePosts filtered page))
  = Z.max 0 (Z.min 3 (Z.of_nat (length filtered) - 3 * page)).
Proof.
  intros Hp. rewrite currentPagePosts_nonneg by done.
  rewrite length_take, length_drop. lia.
Qed.

(** C6: the pages [0 .. pageCount - 1] put one after the other give back the
    filtered list, so their lengths add up to its length; every page but the
    last has exactly 3 posts, and no page is empty or longer than 3. *)
Theorem pages_partition (filtered : list Post) :
  concat (pages filtered) = filtered
  ∧ length (pages filtered) = Z.to_nat (pageCount filtered)
  ∧ sum_list (length <$> pages filtered) = length filtered
  ∧ (∀ p : Z, 0 <= p < pageCount filtered - 1 →
       length (currentPagePosts filtered p) = 3%nat)
  ∧ (∀ p : Z, 0 <= p < pageCount filtered →
       (1 ≤ length (currentPagePosts filtered p) ≤ 3)%nat).
Proof.
  pose proof (pageCount_bounds filtered) as Hb.
  split_and!.
  - apply pages_concat.
  - unfold pages. by rewrite length_fmap, length_seqZ.
  - rewrite <- concat_length_sum. by rewrite pages_concat.
  - intros p Hp. pose proof (currentPagePosts_length filtered p) as Hl. lia.
  - intros p Hp. pose proof (currentPagePosts_length filtered p) as Hl. lia.
Qed.

Lemma pages_partition_witness :
  length (currentPagePosts samplePosts 1) = 3%nat
  ∧ (1 ≤ length (currentPagePosts samplePosts 2) ≤ 3)%nat.
Proof.
  destruct (pages_partition samplePosts) as (_ & _ & _ & Hfull & Hlast).
  split.
  - apply Hfull. vm_compute. split; [discriminate | reflexivity].
  - apply Hlast. vm_compute. split; [discriminate | reflexivity].
Defined.

(** ** The pager *)

(** C7: the rendered tree has a pager exactly when more than 3 posts are
    filtered, and the pager then gets [pageCount]; with exactly 3 filtered
    posts [pageCount] is 1 and there is no pager. *)
Theorem pagination_shown_iff (posts : list Post) (st : ViewState) :
  let filtered := filteredPosts posts (selectedAuthor st) in
  (showPagination filtered = true ↔ (3 < length filtered)%nat)
  ∧ (view_pagination (App posts st)
     = if decide (3 < length filtered)%nat
       then Some {| pager_pageCount := pageCount filtered |} else None)
  ∧ (length filtered = 3%nat →
     pageCount filtered = 1 ∧ view_pagination (App posts st) = None).
Proof.
  intros filtered.
  assert (showPagination filtered = true ↔ (3 < length filtered)%nat) as Hshow.
  { unfold showPagination, POSTS_PER_PAGE. rewrite bool_decide_eq_true. lia. }
  split_and!.
  - exact Hshow.
  - unfold App. cbn. fold filtered. case_decide as Hlen.
    + apply Hshow in Hlen. by rewrite Hlen.
    + destruct (showPagination filtered); [| done].
      exfalso. apply Hlen, Hshow. reflexivity.
  - intros Hlen. pose proof (pageCount_bounds filtered) as Hb. split; [lia |].
    unfold App. cbn. fold filtered.
    destruct (showPagination filtered); [| done].
    assert (3 < length filtered)%nat by (by apply Hshow). lia.
Qed.

Lemma pagination_shown_iff_witness :
  pageCount (take 3 samplePosts) = 1
  ∧ view_pagination (App (take 3 samplePosts) initialState) = None.
Proof.
  destruct (pagination_shown_iff (take 3 samplePosts) initialState)
    as (_ & _ & Hthree).
  apply Hthree. reflexivity.
Defined.

(** ** The state invariant *)

(** C8: when every page-change event carries an index of [[0, pageCount)]
    for the list filtered at that time, every reachable state has
    [currentPage < pageCount], unless [pageCount] is 0, and then
    [currentPagePosts] is empty. *)
Theorem currentPage_in_range (posts : list Post) (st : ViewState) :
  reachable posts st →
  let filtered := filteredPosts posts (selectedAuthor st) in
  (pageCount filtered ≠ 0 → 0 <= currentPage st < pageCount filtered)
  ∧ (pageCount filtered = 0 →
     currentPagePosts filtered (currentPage st) = []).
Proof.
  intros Hreach filtered.
  assert (0 <= currentPage st
          ∧ (pageCount filtered ≠ 0 → currentPage st < pageCount filtered))
    as [Hnonneg Hlt].
  { subst filtered. induction Hreach as [| st ev _ IH Hvalid].
    - pose proof (pageCount_nonneg (filteredPosts posts None)).
      cbn [initialState currentPage selectedAuthor]. lia.
    - destruct ev as [sel | i];
        cbn [handle handleAuthorChange handlePageChange validEvent
             currentPage selectedAuthor] in *.
      + pose proof (pageCount_nonneg (filteredPosts posts sel)). lia.
      + lia. }
  split; [lia |].
  intros Hzero. pose proof (pageCount_bounds filtered) as Hb.
  apply currentPagePosts_past_end; [done |]. unfold offset, POSTS_PER_PAGE. lia.
Qed.

Lemma currentPage_in_range_witness :
  0 <= 2 < pageCount samplePosts.
Proof.
  assert (reachable samplePosts (handle (PageChange 2) initialState)) as Hr.
  { apply reachable_step; [apply reachable_init |].
    vm_compute. split; [discriminate | reflexivity]. }
  destruct (currentPage_in_range samplePosts _ Hr) as [Hin _].
  apply Hin. vm_compute. discriminate.
Defined.

(** ** The two ways of showing everything *)

(** C9: [null] and a selection with the empty-string value give the same
    [filteredPosts], hence the same [pageCount], the same [currentPagePosts]
    on every page, and the same post section and pager. *)
Theorem null_and_show_all_agree (posts : list Post) (lbl : string) (page : Z) :
  let cleared := filteredPosts posts None in
  let chosen := filteredPosts posts (Some {| value := ""; label := lbl |}) in
  cleared = chosen
  ∧ pageCount cleared = pageCount chosen
  ∧ currentPagePosts cleared page = currentPagePosts chosen page
  ∧ view_body (App posts {| selectedAuthor := None; currentPage := page |})
    = view_body (App posts {| selectedAuthor :=
                                Some {| value := ""; label := lbl |};
                              currentPage := page |})
  ∧ view_pagination (App posts {| selectedAuthor := None; currentPage := page |})
    = view_pagination (App posts {| selectedAuthor :=
                                      Some {| value := ""; label := lbl |};
                                    currentPage := page |}).
Proof. cbv zeta. split_and!; reflexivity. Qed.

(** ** Selecting an offered author *)

Lemma take_nonempty {A} (l : list A) (n : nat) :
  l ≠ [] → (0 < n)%nat → take n l ≠ [].
Proof. destruct l, n; cbn; intros; (done || lia). Qed.

(** X13: for a non-empty collection and an option made from a name of
    [uniqueAuthors], selecting it gives, whatever the state was, a
    [filteredPosts] that is not empty and, on page 0, a [currentPagePosts]
    that is not empty, so the tree rendered right after the selection has
    the post section and not the "no books found" paragraph. *)
Theorem offered_author_has_posts (posts : list Post) (n : string)
    (st : ViewState) :
  posts ≠ [] →
  n ∈ uniqueAuthors posts →
  let sel := Some {| value := n; label := n |} in
  filteredPosts posts sel ≠ []
  ∧ currentPagePosts (filteredPosts posts sel) 0 ≠ []
  ∧ view_body (App posts (handleAuthorChange sel st))
    = PostSection (currentPagePosts (filteredPosts posts sel) 0).
Proof.
  intros Hposts Hn sel.
  assert (filteredPosts posts sel ≠ []) as Hfiltered.
  { unfold sel. destruct (decide (n = "")) as [-> | Hne].
    - by rewrite filteredPosts_empty_value.
    - rewrite filteredPosts_named by done. cbn.
      apply uniqueAuthors_elem_of, list_elem_of_fmap in Hn
        as (post & -> & Hpost).
      intros Hnil. eapply filter_nil_not_elem_of; [exact Hnil | | exact Hpost].
      reflexivity. }
  assert (currentPagePosts (filteredPosts posts sel) 0 ≠ []) as Hshown.
  { rewrite currentPagePosts_nonneg by lia. by apply take_nonempty; [| lia]. }
  split_and!; [done | done |].
  unfold App. cbn -[currentPagePosts filteredPosts]. fold sel.
  rewrite bool_decide_true; [done |].
  destruct (currentPagePosts (filteredPosts posts sel) 0); [done | cbn; lia].
Qed.

Lemma offered_author_has_posts_witness :
  filteredPosts samplePosts (Some {| value := "Alice"; label := "Alice" |}) ≠ [].
Proof.
  apply (offered_author_has_posts samplePosts "Alice" initialState).
  - discriminate.
  - apply (bool_decide_unpack _). vm_compute. exact I.
Defined.

(** ** A page index kept by the pager *)

(** C10: with an author selected that the options offer, and a non-empty
    collection, the "no books found" paragraph should be unreachable, as
    the comment above that branch says ("impossible").  The component does
    not keep this.  On [tenPosts], choose the last page (index 3, one of
    the 4 pages), select "Bob" (an offered author with 5 posts: the page is
    reset to 0 and the pager is rendered with 2 pages), then receive the
    page index 2: [handlePageChange] stores it unchecked, the slice is
    empty, and the paragraph is rendered although "Bob" has posts. *)
Theorem no_books_found_with_offered_author :
  let bob := {| value := "Bob"; label := "Bob" |} in
  let selected := run (take 2 stalePagerSession) initialState in
  let final := run stalePagerSession initialState in
  tenPosts ≠ []
  ∧ "Bob" ∈ uniqueAuthors tenPosts
  ∧ bob ∈ authorOptions tenPosts
  ∧ validEvent tenPosts initialState (PageChange 3)
  ∧ selected = {| selectedAuthor := Some bob; currentPage := 0 |}
  ∧ view_pagination (App tenPosts selected) = Some {| pager_pageCount := 2 |}
  ∧ final = {| selectedAuthor := Some bob; currentPage := 2 |}
  ∧ length (filteredPosts tenPosts (selectedAuthor final)) = 5%nat
  ∧ currentPagePosts (filteredPosts tenPosts (selectedAuthor final))
      (currentPage final) = []
  ∧ view_body (App tenPosts final) = NoBooksFound.
Proof.
  cbv zeta. split_and!.
  - discriminate.
  - apply (list_elem_of_lookup_2 _ 0%nat). reflexivity.
  - apply (list_elem_of_lookup_2 _ 1%nat). reflexivity.
  - vm_compute. split; [discriminate | reflexivity].
  - reflexivity.
  - vm_compute. reflexivity.
  - reflexivity.
  - vm_compute. reflexivity.
  - vm_compute. reflexivity.
  - vm_compute. reflexivity.
Qed.

(** * Further properties of the component *)

(** ** Any page index *)

(** A slice is a segment of the array, whatever the bounds are. *)
Lemma slice_segment {A} (l : list A) (start end_ : Z) :
  ∃ pre suf : list A, l = (pre ++ JS.slice l start end_ ++ suf)%list.
Proof.
  unfold JS.slice. cbv zeta.
  match goal with
  | |- context [take ?c (drop ?k l)] =>
      exists (take k l), (drop c (drop k l))
  end.
  by rewrite !take_drop.
Qed.

Lemma slice_length {A} (l : list A) (start count : Z) :
  0 <= count →
  Z.of_nat (length (JS.slice l start (start + count))) <= count.
Proof.
  intros Hc. unfold JS.slice. cbv zeta. rewrite length_take, length_drop.
  destruct (Z.ltb_spec start 0), (Z.ltb_spec (start + count) 0);
    cbv iota; lia.
Qed.

Lemma slice_sublist {A} (l : list A) (start end_ : Z) :
  JS.slice l start end_ `sublist_of` l.
Proof.
  destruct (slice_segment l start end_) as (pre & suf & Hl).
  rewrite Hl at 2. apply sublist_inserts_l, sublist_inserts_r. done.
Qed.

(** X1: [handlePageChange] stores the index it is given unchecked, and for
    every integer index, in range or not, the page shown is a run of at most
    3 consecutive posts of the filtered list. *)
Theorem currentPagePosts_any_page (filtered : list Post) (page : Z)
    (st : ViewState) :
  currentPage (handlePageChange page st) = page
  ∧ (length (currentPagePosts filtered page) ≤ 3)%nat
  ∧ ∃ before after : list Post,
      filtered = (before ++ currentPagePosts filtered page ++ after)%list.
Proof.
  split_and!.
  - reflexivity.
  - pose proof (slice_length filtered (offset page) POSTS_PER_PAGE) as Hl.
    unfold currentPagePosts. unfold POSTS_PER_PAGE in *. lia.
  - apply slice_segment.
Qed.

(** ** When "no books found" is shown *)

Lemma view_body_cases (posts : list Post) (st : ViewState) :
  let shown := currentPagePosts (filteredPosts posts (selectedAuthor st))
                 (currentPage st) in
  (shown = [] ∧ view_body (App posts st) = NoBooksFound)
  ∨ (shown ≠ [] ∧ view_body (App posts st) = PostSection shown).
Proof.
  intros shown. unfold App. cbn -[currentPagePosts filteredPosts].
  fold shown. destruct shown as [| post rest].
  - left. done.
  - right. split; [done |]. rewrite bool_decide_true; [done | cbn; lia].
Qed.

(** X2: after a page change to an index [i >= 0], the "no books found"
    paragraph is rendered exactly when [i] is not below [pageCount], and the
    post section with the slice otherwise; the pager is rendered as before
    the change. *)
Theorem page_change_body (posts : list Post) (st : ViewState) (i : Z) :
  0 <= i →
  let filtered := filteredPosts posts (selectedAuthor st) in
  let st' := handlePageChange i st in
  (view_body (App posts st') = NoBooksFound ↔ pageCount filtered <= i)
  ∧ (i < pageCount filtered →
     view_body (App posts st') = PostSection (currentPagePosts filtered i))
  ∧ view_pagination (App posts st') = view_pagination (App posts st).
Proof.
  intros Hi filtered st'. subst st'.
  pose proof (pageCount_bounds filtered) as Hb.
  pose proof (currentPagePosts_length filtered i Hi) as Hl.
  pose proof (view_body_cases posts (handlePageChange i st)) as Hcases.
  cbv zeta in Hcases.
  cbn [handlePageChange selectedAuthor currentPage] in Hcases.
  fold filtered in Hcases.
  destruct Hcases as [[Hnil ->] | [Hne ->]].
  - rewrite Hnil in Hl. cbn in Hl.
    split_and!; [split; [lia | done] | lia | done].
  - assert (length (currentPagePosts filtered i) ≠ 0%nat) as Hlen
      by (by destruct (currentPagePosts filtered i)).
    split_and!; [split; [done | lia] | done | done].
Qed.

Lemma page_change_body_witness :
  view_body (App samplePosts (handlePageChange 3 initialState)) = NoBooksFound
  ∧ view_body (App samplePosts (handlePageChange 2 initialState))
    = PostSection (currentPagePosts samplePosts 2).
Proof.
  split.
  - apply (page_change_body samplePosts initialState 3); [lia |].
    vm_compute. discriminate.
  - apply (page_change_body samplePosts initialState 2); [lia |].
    vm_compute. reflexivity.
Defined.

(** ** What is shown under a filter *)

(** X3: while an author with a non-empty name is selected, every post shown,
    on any page, is a post of the collection by that author. *)
Theorem shown_posts_by_selected_author (posts : list Post)
    (sel : AuthorOption) (page : Z) (post : Post) :
  value sel ≠ "" →
  post ∈ currentPagePosts (filteredPosts posts (Some sel)) page →
  name (author post) = value sel ∧ post ∈ posts.
Proof.
  intros Hv Hin.
  apply (sublist_subseteq _ _ (slice_sublist _ _ _)) in Hin.
  rewrite filteredPosts_named in Hin by done.
  by apply list_elem_of_filter in Hin.
Qed.

Lemma shown_posts_by_selected_author_witness :
  name (author (samplePost 2 "Alice")) = "Alice"
  ∧ samplePost 2 "Alice" ∈ samplePosts.
Proof.
  apply (shown_posts_by_selected_author samplePosts
           {| value := "Alice"; label := "Alice" |} 0).
  - discriminate.
  - vm_compute. constructor.
Defined.

(** ** Pager and page count *)

(** X4: the pager is rendered exactly when there are at least two pages, and
    it is handed that page count. *)
Theorem pagination_iff_two_pages (posts : list Post) (st : ViewState) :
  let filtered := filteredPosts posts (selectedAuthor st) in
  (is_Some (view_pagination (App posts st)) ↔ 2 <= pageCount filtered)
  ∧ ∀ pager, view_pagination (App posts st) = Some pager →
      pager_pageCount pager = pageCount filtered
      ∧ 2 <= pager_pageCount pager.
Proof.
  intros filtered. pose proof (pageCount_bounds filtered) as Hb.
  unfold App. cbn -[filteredPosts pageCount]. fold filtered.
  unfold showPagination, POSTS_PER_PAGE. case_bool_decide as Hlen.
  - split.
    + split; [lia | eauto].
    + intros pager [= <-]. cbn. lia.
  - split.
    + split; [by intros [? ?] | lia].
    + by intros pager.
Qed.

Lemma pagination_iff_two_pages_witness :
  pager_pageCount {| pager_pageCount := 3 |} = pageCount samplePosts
  ∧ 2 <= pager_pageCount {| pager_pageCount := 3 |}.
Proof.
  destruct (pagination_iff_two_pages samplePosts initialState) as [_ Hpager].
  apply Hpager. vm_compute. reflexivity.
Defined.

Lemma ceil_div_mono (a a' : Z) (p : positive) :
  a <= a' → JS.ceil_div a (Z.pos p) <= JS.ceil_div a' (Z.pos p).
Proof.
  intros Ha. pose proof (ceil_div_bounds a p). pose proof (ceil_div_bounds a' p).
  nia.
Qed.

Lemma filteredPosts_sublist (posts : list Post) (sel : option AuthorOption) :
  filteredPosts posts sel `sublist_of` posts.
Proof.
  unfold filteredPosts. destruct (selectedValue sel) as [v |]; [| done].
  destruct (JS.truthy v); [apply sublist_filter | done].
Qed.

(** X5: whatever is selected, the filtered posts are posts of the collection
    in their original order, and there are never more pages than for the
    whole collection. *)
Theorem filtering_never_adds_pages (posts : list Post)
    (sel : option AuthorOption) :
  filteredPosts posts sel `sublist_of` posts
  ∧ pageCount (filteredPosts posts sel) <= pageCount posts.
Proof.
  pose proof (filteredPosts_sublist posts sel) as Hsub.
  split; [done |]. apply (ceil_div_mono _ _ 3%positive).
  apply sublist_length in Hsub. lia.
Qed.

(** ** Options and posts *)

Lemma author_option_offered (posts : list Post) (post : Post) :
  post ∈ posts →
  {| value := name (author post); label := name (author post) |}
    ∈ authorOptions posts.
Proof.
  intros Hpost. unfold authorOptions. apply list_elem_of_further.
  apply (list_elem_of_fmap_2 (λ a, {| value := a; label := a |})).
  apply uniqueAuthors_elem_of.
  by apply (list_elem_of_fmap_2 (λ post, name (author post))).
Qed.

Lemma filteredPosts_own_author (posts : list Post) (post : Post) (lbl : string) :
  post ∈ posts →
  post ∈ filteredPosts posts
           (Some {| value := name (author post); label := lbl |}).
Proof.
  intros Hpost. destruct (decide (name (author post) = "")) as [Hn | Hn].
  - by rewrite filteredPosts_empty_value.
  - rewrite filteredPosts_named by done. by apply list_elem_of_filter.
Qed.

(** X6: every post of the collection can be reached from the select: the
    options contain one for the post's author, and selecting it keeps the
    post in the filtered list. *)
Theorem every_post_has_its_option (posts : list Post) (post : Post) :
  post ∈ posts →
  ∃ o : AuthorOption,
    o ∈ authorOptions posts
    ∧ value o = name (author post)
    ∧ post ∈ filteredPosts posts (Some o).
Proof.
  intros Hpost.
  exists {| value := name (author post); label := name (author post) |}.
  split_and!.
  - by apply author_option_offered.
  - reflexivity.
  - by apply filteredPosts_own_author.
Qed.

Lemma every_post_has_its_option_witness :
  ∃ o : AuthorOption,
    o ∈ authorOptions samplePosts
    ∧ value o = "Alice"
    ∧ samplePost 5 "Alice" ∈ filteredPosts samplePosts (Some o).
Proof.
  apply (every_post_has_its_option samplePosts (samplePost 5 "Alice")).
  apply (list_elem_of_lookup_2 _ 4%nat). reflexivity.
Defined.

Section Groups.

Context {A : Type}.
Implicit Types (P Q : A → Prop) (l : list A).

Lemma filter_none P `{!∀ x, Decision (P x)} l :
  (∀ x, ¬ P x) → filter P l = [].
Proof.
  intros HP. induction l as [| x l IH]; [done |].
  rewrite filter_cons_False; auto.
Qed.

Lemma filter_all P `{!∀ x, Decision (P x)} l :
  (∀ x, x ∈ l → P x) → filter P l = l.
Proof.
  intros HP. induction l as [| x l IH]; [done |].
  rewrite filter_cons_True by (apply HP; left).
  f_equal. apply IH. intros y Hy. apply HP. by right.
Qed.

Lemma filter_disjoint_union P Q
    `{!∀ x, Decision (P x), !∀ x, Decision (Q x)} l :
  (∀ x, P x → Q x → False) →
  filter P l ++ filter Q l ≡ₚ filter (λ x, P x ∨ Q x) l.
Proof.
  intros Hdisj. induction l as [| x l IH]; [done |].
  rewrite !filter_cons.
  destruct (decide (P x)) as [HP | HP], (decide (Q x)) as [HQ | HQ].
  - destruct (Hdisj x HP HQ).
  - rewrite decide_True by auto. cbn. by rewrite IH.
  - rewrite decide_True by auto. rewrite <- Permutation_middle. by rewrite IH.
  - rewrite decide_False by tauto. done.
Qed.

End Groups.

Lemma groups_permutation (posts : list Post) (us : list string) :
  NoDup us →
  concat ((λ u, filter (λ post, name (author post) = u) posts) <$> us)
  ≡ₚ filter (λ post, name (author post) ∈ us) posts.
Proof.
  induction 1 as [| u us Hu Hnd IH].
  - cbn. rewrite filter_none; [done |]. intros post. apply not_elem_of_nil.
  - cbn [fmap list_fmap concat]. rewrite IH.
    rewrite filter_disjoint_union by (by intros post -> ?).
    erewrite list_filter_iff; [done |].
    intros post. cbn. rewrite elem_of_cons. done.
Qed.

(** X7: when no author has the empty name, the filtered lists of the authors
    of [uniqueAuthors], taken together, are a rearrangement of the
    collection: every post is under exactly one author option. *)
Theorem author_filters_partition (posts : list Post) :
  "" ∉ authorNames posts →
  concat ((λ n, filteredPosts posts (Some {| value := n; label := n |}))
            <$> uniqueAuthors posts)
  ≡ₚ posts.
Proof.
  intros Hempty.
  erewrite list_fmap_ext.
  - rewrite groups_permutation by apply Set_new_NoDup.
    rewrite filter_all; [done |].
    intros post Hpost. apply uniqueAuthors_elem_of.
    by apply (list_elem_of_fmap_2 (λ post, name (author post))).
  - intros i n Hn. cbn beta. apply filteredPosts_named. cbn.
    intros ->. apply Hempty, uniqueAuthors_elem_of.
    by eapply list_elem_of_lookup_2.
Qed.

Lemma author_filters_partition_witness :
  concat ((λ n, filteredPosts samplePosts (Some {| value := n; label := n |}))
            <$> uniqueAuthors samplePosts)
  ≡ₚ samplePosts.
Proof.
  apply (author_filters_partition samplePosts).
  apply (bool_decide_unpack _). vm_compute. exact I.
Defined.

(** ** Sessions driven by the two widgets *)

Lemma offered_option_has_posts (posts : list Post) (o : AuthorOption) :
  posts ≠ [] → o ∈ authorOptions posts → filteredPosts posts (Some o) ≠ [].
Proof.
  intros Hposts Ho. destruct (decide (value o = "")) as [Hv | Hv].
  - by rewrite filteredPosts_empty_value.
  - unfold authorOptions in Ho. apply elem_of_cons in Ho as [-> | Ho]; [done |].
    apply list_elem_of_fmap in Ho as (n & -> & Hn).
    apply uniqueAuthors_elem_of, list_elem_of_fmap in Hn
      as (post & -> & Hpost).
    intros Hnil. apply (not_elem_of_nil post). rewrite <- Hnil.
    by apply filteredPosts_own_author.
Qed.

Lemma reachableOffered_invariant (posts : list Post) (st : ViewState) :
  reachableOffered posts st →
  let filtered := filteredPosts posts (selectedAuthor st) in
  (posts ≠ [] → filtered ≠ [])
  ∧ 0 <= currentPage st
  ∧ (pageCount filtered ≠ 0 → currentPage st < pageCount filtered).
Proof.
  induction 1 as [| st ev _ IH Hev]; cbv zeta.
  - pose proof (pageCount_nonneg (filteredPosts posts None)).
    cbn [initialState currentPage selectedAuthor]. split_and!; [done | lia ..].
  - destruct ev as [[o |] | i];
      cbn [handle handleAuthorChange handlePageChange offeredEvent
           currentPage selectedAuthor] in *.
    + pose proof (pageCount_nonneg (filteredPosts posts (Some o))).
      split_and!; [| lia ..]. intros Hposts.
      by apply offered_option_has_posts.
    + pose proof (pageCount_nonneg (filteredPosts posts None)).
      split_and!; [done | lia ..].
    + split_and!; [tauto | lia ..].
Qed.

(** X8: in a session in which the select only hands over options it was
    given (or [null]) and the pager only indices of its pages, a non-empty
    collection never renders the "no books found" paragraph: every state
    shows a post section with 1 to 3 posts. *)
Theorem no_books_found_unreachable (posts : list Post) (st : ViewState) :
  posts ≠ [] →
  reachableOffered posts st →
  ∃ shown : list Post,
    view_body (App posts st) = PostSection shown
    ∧ shown = currentPagePosts (filteredPosts posts (selectedAuthor st))
                (currentPage st)
    ∧ (1 ≤ length shown ≤ 3)%nat.
Proof.
  intros Hposts Hreach.
  destruct (reachableOffered_invariant posts st Hreach) as (Hne & Hpage & Hlt).
  specialize (Hne Hposts).
  set (filtered := filteredPosts posts (selectedAuthor st)) in *.
  pose proof (pageCount_bounds filtered) as Hb.
  pose proof (currentPagePosts_length filtered (currentPage st) Hpage) as Hl.
  assert (length filtered ≠ 0%nat) by (by destruct filtered).
  destruct (view_body_cases posts st) as [[Hnil _] | [_ Hbody]].
  - fold filtered in Hnil. rewrite Hnil in Hl. cbn in Hl. lia.
  - fold filtered in Hbody. eexists. split_and!; [exact Hbody | done | lia ..].
Qed.

Lemma no_books_found_unreachable_witness :
  ∃ shown : list Post,
    view_body (App samplePosts
                 (handle (PageChange 1)
                    (handle (AuthorChange
                               (Some {| value := "Bob"; label := "Bob" |}))
                       initialState)))
      = PostSection shown
    ∧ shown = currentPagePosts
                (filteredPosts samplePosts
                   (Some {| value := "Bob"; label := "Bob" |})) 1
    ∧ (1 ≤ length shown ≤ 3)%nat.
Proof.
  apply (no_books_found_unreachable samplePosts).
  - discriminate.
  - apply reachableOffered_step.
    + apply reachableOffered_step; [apply reachableOffered_init |].
      apply (list_elem_of_lookup_2 _ 1%nat). reflexivity.
    + vm_compute. split; [discriminate | reflexivity].
Defined.

(** ** Article keys *)

Lemma currentPagePosts_sublist (posts : list Post)
    (sel : option AuthorOption) (page : Z) :
  currentPagePosts (filteredPosts posts sel) page `sublist_of` posts.
Proof.
  etransitivity; [apply slice_sublist | apply filteredPosts_sublist].
Qed.

(** X9: when the posts of the collection have pairwise different [id]s, the
    articles rendered in any state have pairwise different keys; there are
    at most 3 of them, one per post of the page and in the order of the
    page. *)
Theorem article_keys_distinct (posts : list Post) (st : ViewState) :
  NoDup (id <$> posts) →
  NoDup (article_key <$> renderedArticles (App posts st))
  ∧ (length (renderedArticles (App posts st)) ≤ 3)%nat
  ∧ article_key <$> renderedArticles (App posts st)
    = id <$> currentPagePosts (filteredPosts posts (selectedAuthor st))
               (currentPage st).
Proof.
  intros Hids.
  set (shown := currentPagePosts (filteredPosts posts (selectedAuthor st))
                  (currentPage st)).
  assert (renderedArticles (App posts st) = renderArticle <$> shown) as ->.
  { unfold renderedArticles.
    destruct (view_body_cases posts st) as [[Hnil ->] | [_ ->]]; [| done].
    fold shown in Hnil. by rewrite Hnil. }
  assert (article_key <$> (renderArticle <$> shown) = id <$> shown) as ->.
  { by rewrite <- list_fmap_compose. }
  split_and!.
  - apply (sublist_NoDup _ (id <$> posts)); [done |].
    apply fmap_sublist, currentPagePosts_sublist.
  - rewrite length_fmap.
    pose proof (slice_length (filteredPosts posts (selectedAuthor st))
                  (offset (currentPage st)) POSTS_PER_PAGE) as Hl.
    unfold shown, currentPagePosts. unfold POSTS_PER_PAGE in *. lia.
  - reflexivity.
Qed.

Lemma article_keys_distinct_witness :
  NoDup (article_key <$> renderedArticles (App samplePosts initialState)).
Proof.
  apply (article_keys_distinct samplePosts initialState).
  apply (bool_decide_unpack _). vm_compute. exact I.
Defined.

(** ** The order of the authors *)





(** ** Select styles *)

Section Styles.

Implicit Types (provided : gmap string CSS) (state : SelectState).

(** X11: [styles.control] sets [border], [boxShadow] and ["&:hover"] to
    values that depend on [state.isFocused] only, whatever [provided] has
    under these names, and keeps every other property of [provided];
    applying it twice is the same as applying it once. *)
Theorem control_retains_provided provided state :
  (∀ k : string, k ∉ ["border"; "boxShadow"; "&:hover"] →
     styles.control provided state !! k = provided !! k)
  ∧ (∀ k : string, k ∈ ["border"; "boxShadow"; "&:hover"] →
       is_Some (styles.control provided state !! k)
       ∧ ∀ provided' selected,
           styles.control provided state !! k
           = styles.control provided'
               {| isFocused := isFocused state; isSelected := selected |} !! k)
  ∧ dom (styles.control provided state)
    = dom provided ∪ {["border"; "boxShadow"; "&:hover"]}
  ∧ styles.control (styles.control provided state) state
    = styles.control provided state.
Proof.
  split_and!.
  - intros k Hk. unfold styles.control.
    rewrite !lookup_insert_ne;
      [done | intros <-; apply Hk; rewrite !elem_of_cons; tauto ..].
  - intros k Hk. unfold styles.control.
    repeat (apply elem_of_cons in Hk as [-> | Hk]);
      [| | | by apply not_elem_of_nil in Hk];
      (split; [| intros provided' selected; cbn [isFocused]]);
      by simplify_map_eq.
  - unfold styles.control. rewrite !dom_insert_L. apply set_eq. intros k.
    rewrite !elem_of_union, !elem_of_singleton. tauto.
  - apply map_eq. intros k. unfold styles.control.
    destruct (decide (k = "&:hover")) as [-> | ?]; [by simplify_map_eq |].
    destruct (decide (k = "boxShadow")) as [-> | ?]; [by simplify_map_eq |].
    destruct (decide (k = "border")) as [-> | ?]; by simplify_map_eq.
Qed.

Lemma control_retains_provided_witness :
  styles.control {["width" := CSSNum 100]} (mkSelectState true false) !! "width"
  = Some (CSSNum 100)
  ∧ is_Some (styles.control ∅ (mkSelectState true false) !! "border").
Proof.
  destruct (control_retains_provided {["width" := CSSNum 100]}
              (mkSelectState true false)) as (Hkeep & _).
  destruct (control_retains_provided ∅ (mkSelectState true false))
    as (_ & Hset & _).
  split.
  - rewrite Hkeep; [reflexivity |].
    apply (bool_decide_unpack _). vm_compute. exact I.
  - apply Hset. apply (bool_decide_unpack _). vm_compute. exact I.
Defined.

(** X12: [styles.option] sets [background], [color] and ["&:hover"] to values
    that depend on [state.isSelected] only, and keeps every other property
    of [provided]; a selected option is white on [#9000ff], any other black
    on white; applying it twice is the same as applying it once. *)
Theorem option_retains_provided provided state :
  (∀ k : string, k ∉ ["background"; "color"; "&:hover"] →
     styles.option provided state !! k = provided !! k)
  ∧ styles.option provided state !! "background"
    = Some (CSSStr (if isSelected state then "#9000ff" else "white"))
  ∧ styles.option provided state !! "color"
    = Some (CSSStr (if isSelected state then "white" else "black"))
  ∧ styles.option provided state !! "&:hover"
    = Some (CSSObj {["background" := CSSStr "#CEA3FF"]})
  ∧ dom (styles.option provided state)
    = dom provided ∪ {["background"; "color"; "&:hover"]}
  ∧ styles.option (styles.option provided state) state
    = styles.option provided state.
Proof.
  split_and!.
  - intros k Hk. unfold styles.option.
    rewrite !lookup_insert_ne;
      [done | intros <-; apply Hk; rewrite !elem_of_cons; tauto ..].
  - unfold styles.option. by simplify_map_eq.
  - unfold styles.option. by simplify_map_eq.
  - unfold styles.option. by simplify_map_eq.
  - unfold styles.option. rewrite !dom_insert_L. apply set_eq. intros k.
    rewrite !elem_of_union, !elem_of_singleton. tauto.
  - apply map_eq. intros k. unfold styles.option.
    destruct (decide (k = "&:hover")) as [-> | ?]; [by simplify_map_eq |].
    destruct (decide (k = "color")) as [-> | ?]; [by simplify_map_eq |].
    destruct (decide (k = "background")) as [-> | ?]; by simplify_map_eq.
Qed.

Lemma option_retains_provided_witness :
  styles.option {["padding" := CSSNum 8]} (mkSelectState false true) !! "padding"
  = Some (CSSNum 8).
Proof.
  destruct (option_retains_provided {["padding" := CSSNum 8]}
              (mkSelectState false true)) as (Hkeep & _).
  rewrite Hkeep; [reflexivity |].
  apply (bool_decide_unpack _). vm_compute. exact I.
Defined.

End Styles.
